(** * The menu bridge of teams-js: [packages/teams-js/src/private/menus.ts]

    A shallow embedding of the [menus] namespace.  The namespace keeps three
    module-level variables (one handler slot per channel) and talks to the
    host through three imported functions.  It is modelled as a state and
    exception monad over a record holding the three slots together with the
    part of the outside world the imported functions act on. *)

From Stdlib Require Import String List Bool Lia.
Import ListNotations.
Open Scope string_scope.

Module menus.

(** ** Data model *)

(** [interface ViewConfiguration]. *)
Record ViewConfiguration : Type := mkViewConfiguration {
  vc_id : string;
  vc_title : string;
  vc_contentDescription : option string
}.

(** [enum MenuListType]. *)
Inductive MenuListType : Type :=
| dropDown
| popOver.

(** [class MenuItem] and [interface ViewData]; each refers to the other.
    A field the class leaves without initialiser is [None] until assigned. *)
Inductive MenuItem : Type :=
| mkMenuItem (id title icon : string)
             (iconSelected contentDescription : option string)
             (enabled : bool)
             (viewData : option ViewData)
             (selected : bool)
with ViewData : Type :=
| mkViewData (listTitle : option string)
             (listType : MenuListType)
             (listItems : list MenuItem).

(** [new MenuItem()] followed by the assignment of the three mandatory
    fields: [enabled = true] and [selected = false] are the class defaults. *)
Definition newMenuItem (id title icon : string) : MenuItem :=
  mkMenuItem id title icon None None true None false.

(** [interface ActionMenuParameters]. *)
Record ActionMenuParameters : Type := mkActionMenuParameters {
  amp_title : string;
  amp_items : list MenuItem
}.

(** The three channels of the namespace. *)
Inductive Channel : Type :=
| NavBar
| ActionMenu
| ViewConfig.

(** A handler [(id: string) => boolean] is a function object of the caller;
    the slots hold a reference to it.  The define/show operations are
    declared to take such a function: a call that passes [undefined] or
    [null] against that declaration is outside this model. *)
Definition HandlerRef : Type := nat.

(** What one call of a handler does: it returns a boolean or it throws. *)
Inductive HandlerOutcome : Type :=
| Returns (handled : bool)
| Throws (reason : string).

(** A positional argument of an outbound message. *)
Inductive Arg : Type :=
| ArgViews (viewConfig : list ViewConfiguration)
| ArgItems (items : list MenuItem)
| ArgParams (params : ActionMenuParameters)
| ArgId (id : string).

(** One call [sendMessageToParent(func, args)]. *)
Record Message : Type := mkMessage {
  func : string;
  args : list Arg
}.

(** One call [registerHandler(name, handler, sendMessage)]; the handler is
    one of the three dispatch functions of the namespace. *)
Record Registration : Type := mkRegistration {
  reg_name : string;
  reg_channel : Channel;
  reg_sendMessage : bool
}.

(** Modelled from the spec: [runtime] of [public/runtime] is not part of the
    sources at hand.  It is the Capability Registry, a table of
    host-declared feature flags; the flag for menus is absent until the
    registry is populated.  These are the values [runtime.supports.menus]
    can hold. *)
Inductive JsValue : Type :=
| JsUndefined
| JsBoolean (b : bool)
| JsObject.

(** Truthiness, as the conditional operator tests it. *)
Definition truthy (v : JsValue) : bool :=
  match v with
  | JsUndefined => false
  | JsBoolean b => b
  | JsObject => true
  end.

(** The state the namespace reads and writes: its own three [let]
    variables, and what the imported functions act on. *)
Record State : Type := mkState {
  initialized : bool;
  supports_menus : JsValue;
  registrations : list Registration;
  outbox : list Message;
  navBarMenuItemPressHandler : option HandlerRef;
  actionMenuItemPressHandler : option HandlerRef;
  viewConfigItemPressHandler : option HandlerRef
}.

(** The state at module load: the three [let] declarations have no
    initialiser. *)
Definition moduleLoad (init : bool) (flag : JsValue) : State :=
  mkState init flag [] [] None None None.

Definition set_outbox (o : list Message) (st : State) : State :=
  mkState (initialized st) (supports_menus st) (registrations st) o
          (navBarMenuItemPressHandler st) (actionMenuItemPressHandler st)
          (viewConfigItemPressHandler st).

Definition set_registrations (r : list Registration) (st : State) : State :=
  mkState (initialized st) (supports_menus st) r (outbox st)
          (navBarMenuItemPressHandler st) (actionMenuItemPressHandler st)
          (viewConfigItemPressHandler st).

Definition set_supports_menus (v : JsValue) (st : State) : State :=
  mkState (initialized st) v (registrations st) (outbox st)
          (navBarMenuItemPressHandler st) (actionMenuItemPressHandler st)
          (viewConfigItemPressHandler st).

Definition set_navBarMenuItemPressHandler (h : option HandlerRef) (st : State) : State :=
  mkState (initialized st) (supports_menus st) (registrations st) (outbox st)
          h (actionMenuItemPressHandler st) (viewConfigItemPressHandler st).

Definition set_actionMenuItemPressHandler (h : option HandlerRef) (st : State) : State :=
  mkState (initialized st) (supports_menus st) (registrations st) (outbox st)
          (navBarMenuItemPressHandler st) h (viewConfigItemPressHandler st).

Definition set_viewConfigItemPressHandler (h : option HandlerRef) (st : State) : State :=
  mkState (initialized st) (supports_menus st) (registrations st) (outbox st)
          (navBarMenuItemPressHandler st) (actionMenuItemPressHandler st) h.

(** ** The monad: state that survives an exception *)

Inductive Error : Type :=
| NotInitialized
| HandlerFault (reason : string).

Inductive Result (A : Type) : Type :=
| Ok (a : A)
| Err (e : Error).

Arguments Ok {A} a.
Arguments Err {A} e.

Definition M (A : Type) : Type := State -> Result A * State.

Definition ret {A : Type} (a : A) : M A := fun st => (Ok a, st).

Definition bind {A B : Type} (c : M A) (k : A -> M B) : M B :=
  fun st =>
    match c st with
    | (Ok a, st') => k a st'
    | (Err e, st') => (Err e, st')
    end.

Definition throw {A : Type} (e : Error) : M A := fun st => (Err e, st).

Definition gets {A : Type} (f : State -> A) : M A := fun st => (Ok (f st), st).

Definition modify (f : State -> State) : M unit := fun st => (Ok tt, f st).

Declare Scope menus_scope.
Delimit Scope menus_scope with menus.

Notation "x <- c ;; k" := (bind c (fun x => k))
  (at level 100, c at next level, right associativity) : menus_scope.
Notation "c ;; k" := (bind c (fun _ => k))
  (at level 100, right associativity) : menus_scope.

Open Scope menus_scope.

(** ** The imported functions *)

(** Modelled from the spec: [ensureInitialized] of [internal/internalAPIs]
    is not part of the sources at hand.  It is the Session Guard: a single
    operation that fails fast if the bridge handshake has not completed. *)
Definition ensureInitialized : M unit :=
  ok <- gets initialized ;;
  if ok then ret tt else throw NotInitialized.

(** Modelled from the spec: [sendMessageToParent] of
    [internal/communication] is not part of the sources at hand.  It is the
    send primitive of the bridge: one named command with its positional
    arguments leaves for the host, fire and forget. *)
Definition sendMessageToParent (name : string) (a : list Arg) : M unit :=
  modify (fun st => set_outbox (outbox st ++ [mkMessage name a]) st).

(** Modelled from the spec: [registerHandler] of [internal/handlers] is not
    part of the sources at hand.  It records which dispatch function receives
    which inbound command. *)
Definition registerHandler (name : string) (c : Channel) (sendMessage : bool) : M unit :=
  modify (fun st => set_registrations (registrations st ++ [mkRegistration name c sendMessage]) st).

Section Handlers.

(** What the caller's function objects do when called.  A handler may have
    effects of its own on the state; it returns or throws. *)
Variable behaviour : HandlerRef -> string -> State -> HandlerOutcome * State.

(** The call [handler(id)]. *)
Definition invoke (h : HandlerRef) (id : string) : M bool :=
  fun st =>
    match behaviour h id st with
    | (Returns b, st') => (Ok b, st')
    | (Throws r, st') => (Err (HandlerFault r), st')
    end.

(** ** The namespace *)

Definition initialize : M unit :=
  registerHandler "navBarMenuItemPress" NavBar false ;;
  registerHandler "actionMenuItemPress" ActionMenu false ;;
  registerHandler "setModuleView" ViewConfig false.

Definition setUpViews (viewConfig : list ViewConfiguration) (handler : HandlerRef) : M unit :=
  ensureInitialized ;;
  modify (set_viewConfigItemPressHandler (Some handler)) ;;
  sendMessageToParent "setUpViews" [ArgViews viewConfig].

(** [!slot || !slot(id)]: the right operand runs only when the slot holds
    a handler. *)
Definition notHandled (slot : State -> option HandlerRef) (id : string) : M bool :=
  h <- gets slot ;;
  match h with
  | None => ret true
  | Some f => b <- invoke f id ;; ret (negb b)
  end.

Definition handleViewConfigItemPress (id : string) : M unit :=
  c <- notHandled viewConfigItemPressHandler id ;;
  if c then
    (ensureInitialized ;;
     sendMessageToParent "viewConfigItemPress" [ArgId id])
  else ret tt.

Definition setNavBarMenu (items : list MenuItem) (handler : HandlerRef) : M unit :=
  ensureInitialized ;;
  modify (set_navBarMenuItemPressHandler (Some handler)) ;;
  sendMessageToParent "setNavBarMenu" [ArgItems items].

Definition handleNavBarMenuItemPress (id : string) : M unit :=
  c <- notHandled navBarMenuItemPressHandler id ;;
  if c then
    (ensureInitialized ;;
     sendMessageToParent "handleNavBarMenuItemPress" [ArgId id])
  else ret tt.

Definition showActionMenu (params : ActionMenuParameters) (handler : HandlerRef) : M unit :=
  ensureInitialized ;;
  modify (set_actionMenuItemPressHandler (Some handler)) ;;
  sendMessageToParent "showActionMenu" [ArgParams params].

Definition handleActionMenuItemPress (id : string) : M unit :=
  c <- notHandled actionMenuItemPressHandler id ;;
  if c then
    (ensureInitialized ;;
     sendMessageToParent "handleActionMenuItemPress" [ArgId id])
  else ret tt.

(** [runtime.supports.menus ? true : false]. *)
Definition isSupported : M bool :=
  v <- gets supports_menus ;;
  ret (if truthy v then true else false).

(** ** The three channels, uniformly *)

(** The slot of a channel. *)
Definition slot (c : Channel) : State -> option HandlerRef :=
  match c with
  | NavBar => navBarMenuItemPressHandler
  | ActionMenu => actionMenuItemPressHandler
  | ViewConfig => viewConfigItemPressHandler
  end.

(** The dispatch function of a channel. *)
Definition dispatch (c : Channel) : string -> M unit :=
  match c with
  | NavBar => handleNavBarMenuItemPress
  | ActionMenu => handleActionMenuItemPress
  | ViewConfig => handleViewConfigItemPress
  end.

(** A call of one of the three define/show operations. *)
Inductive Define : Type :=
| SetUpViews (viewConfig : list ViewConfiguration) (handler : HandlerRef)
| SetNavBarMenu (items : list MenuItem) (handler : HandlerRef)
| ShowActionMenu (params : ActionMenuParameters) (handler : HandlerRef).

Definition define (d : Define) : M unit :=
  match d with
  | SetUpViews v h => setUpViews v h
  | SetNavBarMenu i h => setNavBarMenu i h
  | ShowActionMenu p h => showActionMenu p h
  end.

End Handlers.

(** The channel a define/show call belongs to, the handler it carries and
    the payload the caller gave. *)
Definition channelOf (d : Define) : Channel :=
  match d with
  | SetUpViews _ _ => ViewConfig
  | SetNavBarMenu _ _ => NavBar
  | ShowActionMenu _ _ => ActionMenu
  end.

Definition handlerOf (d : Define) : HandlerRef :=
  match d with
  | SetUpViews _ h => h
  | SetNavBarMenu _ h => h
  | ShowActionMenu _ h => h
  end.

Definition payloadOf (d : Define) : Arg :=
  match d with
  | SetUpViews v _ => ArgViews v
  | SetNavBarMenu i _ => ArgItems i
  | ShowActionMenu p _ => ArgParams p
  end.

(** The command name each define/show operation passes to
    [sendMessageToParent]. *)
Definition commandOf (d : Define) : string :=
  match d with
  | SetUpViews _ _ => "setUpViews"
  | SetNavBarMenu _ _ => "setNavBarMenu"
  | ShowActionMenu _ _ => "showActionMenu"
  end.

(** The command name each dispatch function passes to
    [sendMessageToParent] when the press was not consumed. *)
Definition fallbackCommand (c : Channel) : string :=
  match c with
  | NavBar => "handleNavBarMenuItemPress"
  | ActionMenu => "handleActionMenuItemPress"
  | ViewConfig => "viewConfigItemPress"
  end.

(** Assignment to the slot of a channel. *)
Definition store (c : Channel) (h : option HandlerRef) : State -> State :=
  match c with
  | NavBar => set_navBarMenuItemPressHandler h
  | ActionMenu => set_actionMenuItemPressHandler h
  | ViewConfig => set_viewConfigItemPressHandler h
  end.

(** The state once one more message has left. *)
Definition sent (name : string) (a : list Arg) (st : State) : State :=
  set_outbox (outbox st ++ [mkMessage name a]) st.

(** Handlers for the examples: 0 consumes every press, 1 declines every
    press, 2 throws, 3 re-registers itself on the navigation bar before
    declining, any other consumes the press of item a only. *)
Definition sampleBehaviour (h : HandlerRef) (id : string) (st : State)
  : HandlerOutcome * State :=
  match h with
  | 0 => (Returns true, st)
  | 1 => (Returns false, st)
  | 2 => (Throws "boom", st)
  | 3 => (Returns false, snd (setNavBarMenu [] 3 st))
  | _ => (Returns (String.eqb id "a"), st)
  end.

(** Scenario data: one navigation-bar entry. *)
Definition alpha : MenuItem := newMenuItem "a" "Alpha" "<svg/>".

(** ** Sequences of calls *)

Definition Behaviour : Type := HandlerRef -> string -> State -> HandlerOutcome * State.

(** One call into the namespace: by the guest (initialize, a define/show
    operation, isSupported) or by the host (the press of an item, which
    reaches the dispatch function of its channel). *)
Inductive Call : Type :=
| CallInitialize
| CallDefine (d : Define)
| CallPress (c : Channel) (id : string)
| CallIsSupported.

(** The state a call leaves behind; its value or its exception goes to the
    caller, and the next call finds the state as this one left it. *)
Definition after (b : Behaviour) (k : Call) (st : State) : State :=
  match k with
  | CallInitialize => snd (initialize st)
  | CallDefine d => snd (define d st)
  | CallPress c id => snd (dispatch b c id st)
  | CallIsSupported => snd (isSupported st)
  end.

Definition run (b : Behaviour) (ks : list Call) (st : State) : State :=
  fold_left (fun s k => after b k s) ks st.

(** The state in which a dispatch reaches its guard, if it does: the one
    the handler of the channel left, or the incoming one when the slot is
    empty. *)
Definition handlerState (b : Behaviour) (c : Channel) (id : string) (st : State) : State :=
  match slot c st with
  | None => st
  | Some h => snd (b h id st)
  end.

Definition Channel_eqb (c c' : Channel) : bool :=
  match c, c' with
  | NavBar, NavBar => true
  | ActionMenu, ActionMenu => true
  | ViewConfig, ViewConfig => true
  | _, _ => false
  end.

(** A single cell that a define/show call on channel [c] overwrites and
    every other call leaves alone. *)
Definition overwrite (c : Channel) (cell : option HandlerRef) (k : Call) : option HandlerRef :=
  match k with
  | CallDefine d => if Channel_eqb (channelOf d) c then Some (handlerOf d) else cell
  | _ => cell
  end.

(** Handlers for the examples that leave the state alone: 0 consumes every
    press, 1 declines every press, 2 throws, any other consumes the press
    of item a only. *)
Definition pureBehaviour : Behaviour := fun h id st =>
  (match h with
   | 0 => Returns true
   | 1 => Returns false
   | 2 => Throws "boom"
   | _ => Returns (String.eqb id "a")
   end, st).

(** A handler keeps an observation of the state when no call of it changes
    that observation. *)
Definition keeps {A : Type} (f : State -> A) (b : Behaviour) : Prop :=
  forall h id st, f (snd (b h id st)) = f st.

(** The one message a call can send: a define/show call its command with
    the payload it was given, a press the fallback command of its channel
    with the identifier it was given; the other calls send none. *)
Definition messageOf (k : Call) : option Message :=
  match k with
  | CallDefine d => Some (mkMessage (commandOf d) [payloadOf d])
  | CallPress c id => Some (mkMessage (fallbackCommand c) [ArgId id])
  | CallInitialize => None
  | CallIsSupported => None
  end.

(** [sentBy ks ms]: the messages [ms] come from the calls [ks], in the
    order of the calls, each call giving its own message or none. *)
Inductive sentBy : list Call -> list Message -> Prop :=
| sentBy_nil : sentBy [] []
| sentBy_silent (k : Call) (ks : list Call) (ms : list Message) :
    sentBy ks ms -> sentBy (k :: ks) ms
| sentBy_one (k : Call) (ks : list Call) (m : Message) (ms : list Message) :
    messageOf k = Some m -> sentBy ks ms -> sentBy (k :: ks) (m :: ms).

(** Whether a call is a define/show call on channel [c]. *)
Definition definesOn (c : Channel) (k : Call) : bool :=
  match k with
  | CallDefine d => Channel_eqb (channelOf d) c
  | _ => false
  end.

(** The inbound names [initialize] registers, with the channel whose
    dispatch function each one reaches. *)
Definition inboundNames : list string :=
  ["navBarMenuItemPress"; "actionMenuItemPress"; "setModuleView"].

End menus.

(** * The bundle-size tool:
      [tools/bundle-size-tools/src/utilities/getLastCommitHashFromPR.ts] *)

Module BundleSizeTools.

Section AzureDevOps.

(** Taken as parameters: the types of [azure-devops-node-api] the function
    uses are not part of the sources at hand.  [number] is the type of a
    pull request id, [GitCommitRef] an entry of the commit list with its
    field [commitId], [Reason] what a promise of the API may reject with. *)
Variables number GitCommitRef CommitId Reason : Type.
Variable commitId : GitCommitRef -> CommitId.

(** Why an awaited promise rejected: the API said so, or a property was
    read off [undefined]. *)
Inductive Rejection : Type :=
| ApiRejection (r : Reason)
| TypeError.

(** A promise, once settled. *)
Inductive Settled (A : Type) : Type :=
| Fulfilled (a : A)
| Rejected (r : Rejection).

Arguments Fulfilled {A} a.
Arguments Rejected {A} r.

(** [await p] inside an async function: the value of [p], or the end of the
    function with the rejection of [p]. *)
Definition await {A B : Type} (p : Settled A) (k : A -> Settled B) : Settled B :=
  match p with
  | Fulfilled a => k a
  | Rejected r => Rejected r
  end.

(** The part of [IGitApi] the function calls. *)
Record IGitApi : Type := mkGitApi {
  getPullRequestCommits : string -> number -> Settled (list GitCommitRef)
}.

(** The part of [WebApi] the function calls. *)
Record WebApi : Type := mkWebApi {
  getGitApi : Settled IGitApi
}.

(** [prCommits[0].commitId]: reading [commitId] off the first entry; an
    empty array has [undefined] there and the read throws.  The two
    promises are taken to resolve to values of their declared types, a git
    client and an array of commit entries; a promise resolving to [null]
    or [undefined] against that declaration is outside this model. *)
Definition getLastCommitHashFromPR (adoConnection : WebApi) (prId : number)
           (repoGuid : string) : Settled CommitId :=
  await (getGitApi adoConnection) (fun gitApi =>
  await (getPullRequestCommits gitApi repoGuid prId) (fun prCommits =>
  match nth_error prCommits 0 with
  | Some first => Fulfilled (commitId first)
  | None => Rejected TypeError
  end)).

End AzureDevOps.

Arguments ApiRejection {Reason} r.
Arguments TypeError {Reason}.
Arguments Fulfilled {Reason A} a.
Arguments Rejected {Reason A} r.
Arguments mkGitApi {number GitCommitRef Reason} _.
Arguments getPullRequestCommits {number GitCommitRef Reason} _ _ _.
Arguments mkWebApi {number GitCommitRef Reason} _.
Arguments getGitApi {number GitCommitRef Reason} _.
Arguments getLastCommitHashFromPR {number GitCommitRef CommitId Reason} commitId _ _ _.

End BundleSizeTools.

Import menus.
Open Scope list_scope.
Open Scope menus_scope.

(** * Properties *)

(** ** How a press is decided locally

    [verdict b c id st handled st'] holds when, in state [st], the press of
    [id] on channel [c] is decided locally as [handled], leaving state
    [st']: a registered handler returned [handled], or no handler is
    registered and the press is not handled. *)
Inductive verdict (b : HandlerRef -> string -> State -> HandlerOutcome * State)
          (c : Channel) (id : string) (st : State) : bool -> State -> Prop :=
| verdict_returned (h : HandlerRef) (handled : bool) (st' : State) :
    slot c st = Some h ->
    b h id st = (Returns handled, st') ->
    verdict b c id st handled st'
| verdict_absent :
    slot c st = None ->
    verdict b c id st false st.

(** ** Basic facts about the operations *)

Lemma ensureInitialized_true st :
  initialized st = true -> ensureInitialized st = (Ok tt, st).
Proof.
  intros H. unfold ensureInitialized, bind, gets. rewrite H. reflexivity.
Qed.

Lemma ensureInitialized_false st :
  initialized st = false -> ensureInitialized st = (Err NotInitialized, st).
Proof.
  intros H. unfold ensureInitialized, bind, gets. rewrite H. reflexivity.
Qed.

Lemma define_unfold d :
  define d =
  (ensureInitialized ;;
   modify (store (channelOf d) (Some (handlerOf d))) ;;
   sendMessageToParent (commandOf d) [payloadOf d]).
Proof. destruct d; reflexivity. Qed.

Lemma define_ready d st :
  initialized st = true ->
  define d st =
  (Ok tt, sent (commandOf d) [payloadOf d] (store (channelOf d) (Some (handlerOf d)) st)).
Proof.
  intros H. rewrite define_unfold. unfold bind at 1.
  rewrite (ensureInitialized_true _ H). reflexivity.
Qed.

Lemma define_refused d st :
  initialized st = false -> define d st = (Err NotInitialized, st).
Proof.
  intros H. rewrite define_unfold. unfold bind at 1.
  rewrite (ensureInitialized_false _ H). reflexivity.
Qed.

Lemma initialized_sent name a st : initialized (sent name a st) = initialized st.
Proof. reflexivity. Qed.

Lemma initialized_store c h st : initialized (store c h st) = initialized st.
Proof. destruct c; reflexivity. Qed.

Lemma slot_sent c name a st : slot c (sent name a st) = slot c st.
Proof. destruct c; reflexivity. Qed.

Lemma slot_store_same c h st : slot c (store c h st) = h.
Proof. destruct c; reflexivity. Qed.

Lemma slot_store_other c c' h st : c <> c' -> slot c (store c' h st) = slot c st.
Proof. destruct c, c'; intros H; try reflexivity; contradiction H; reflexivity. Qed.

Lemma outbox_store c h st : outbox (store c h st) = outbox st.
Proof. destruct c; reflexivity. Qed.

Lemma dispatch_unfold b c id :
  dispatch b c id =
  (u <- notHandled b (slot c) id ;;
   if u then (ensureInitialized ;; sendMessageToParent (fallbackCommand c) [ArgId id])
   else ret tt).
Proof. destruct c; reflexivity. Qed.

(** The guarded send that closes an unhandled press. *)
Lemma fallback_run c id st :
  (ensureInitialized ;; sendMessageToParent (fallbackCommand c) [ArgId id]) st =
  if initialized st then (Ok tt, sent (fallbackCommand c) [ArgId id] st)
  else (Err NotInitialized, st).
Proof.
  unfold bind at 1. destruct (initialized st) eqn:E.
  - rewrite (ensureInitialized_true _ E). reflexivity.
  - rewrite (ensureInitialized_false _ E). reflexivity.
Qed.

Lemma notHandled_verdict b c id st handled st' :
  verdict b c id st handled st' ->
  notHandled b (slot c) id st = (Ok (negb handled), st').
Proof.
  intros V. unfold notHandled, bind, gets, invoke, ret.
  destruct V as [h handled st' Hs Hb | Hs]; rewrite Hs; [rewrite Hb|]; reflexivity.
Qed.

Lemma dispatch_verdict b c id st handled st' :
  verdict b c id st handled st' ->
  dispatch b c id st =
  if handled then (Ok tt, st')
  else if initialized st' then (Ok tt, sent (fallbackCommand c) [ArgId id] st')
  else (Err NotInitialized, st').
Proof.
  intros V. rewrite dispatch_unfold. unfold bind at 1.
  rewrite (notHandled_verdict _ _ _ _ _ _ V).
  destruct handled; simpl; [reflexivity | apply fallback_run].
Qed.

Lemma dispatch_throws b c id st h r st' :
  slot c st = Some h ->
  b h id st = (Throws r, st') ->
  dispatch b c id st = (Err (HandlerFault r), st').
Proof.
  intros Hs Hb. rewrite dispatch_unfold.
  unfold bind at 1. unfold notHandled, bind, gets. rewrite Hs.
  unfold invoke. rewrite Hb. reflexivity.
Qed.

(** ** Selection dispatch *)

(** C1, as the code has it.  For every channel and every identifier
    delivered inbound: when a registered handler returns true the dispatch
    sends nothing and ends in the state the handler left; when the handler
    returns false or no handler is registered, the dispatch passes the
    session guard first, so with the session initialized exactly one
    fallback command with the identifier as its sole argument is sent, and
    with the session not initialized the dispatch raises the not-initialized
    failure and sends nothing. *)
Theorem C1_dispatch_decision b c id st handled st' :
  verdict b c id st handled st' ->
  let r := dispatch b c id st in
  (handled = true -> r = (Ok tt, st')) /\
  (handled = false -> initialized st' = true ->
   r = (Ok tt, sent (fallbackCommand c) [ArgId id] st') /\
   outbox (snd r) = outbox st' ++ [mkMessage (fallbackCommand c) [ArgId id]]) /\
  (handled = false -> initialized st' = false ->
   r = (Err NotInitialized, st')).
Proof.
  intros V r. subst r. rewrite (dispatch_verdict _ _ _ _ _ _ V).
  repeat split; intros; subst handled; try reflexivity;
    match goal with H : initialized _ = _ |- _ => rewrite H end; reflexivity.
Qed.

Lemma C1_dispatch_decision_witness :
  let st := sent "setNavBarMenu" [ArgItems [alpha]]
              (store NavBar (Some 1) (moduleLoad true JsObject)) in
  verdict sampleBehaviour NavBar "a" st false st /\
  dispatch sampleBehaviour NavBar "a" st =
  (Ok tt, sent "handleNavBarMenuItemPress" [ArgId "a"] st).
Proof.
  intros st.
  assert (V : verdict sampleBehaviour NavBar "a" st false st)
    by (apply (verdict_returned _ _ _ _ 1); reflexivity).
  split; [exact V|].
  destruct (C1_dispatch_decision sampleBehaviour NavBar "a" st false st V)
    as [_ [H _]].
  destruct (H eq_refl eq_refl) as [E _]. exact E.
Defined.

(** C1 as stated fails where the code guards the fallback: at module load
    with the session not initialized no handler is registered, yet a press
    sends no fallback command. *)
Lemma C1_counterexample :
  let st := moduleLoad false JsUndefined in
  let r := dispatch sampleBehaviour NavBar "a" st in
  slot NavBar st = None /\
  fst r = Err NotInitialized /\
  ~ (exists m, outbox (snd r) = outbox st ++ [m]).
Proof.
  repeat split. intros [m H]. discriminate H.
Qed.

(** C2, as the code has it.  When a navigation-bar press is not handled
    locally and the session is initialized, the fallback command sent is
    named handleNavBarMenuItemPress and carries the selected identifier as
    its sole argument; likewise the action-menu fallback command is named
    handleActionMenuItemPress. *)
Theorem C2_fallback_names b id st st' :
  initialized st' = true ->
  (verdict b NavBar id st false st' ->
   handleNavBarMenuItemPress b id st =
   (Ok tt, sent "handleNavBarMenuItemPress" [ArgId id] st')) /\
  (verdict b ActionMenu id st false st' ->
   handleActionMenuItemPress b id st =
   (Ok tt, sent "handleActionMenuItemPress" [ArgId id] st')).
Proof.
  intros I. split; intros V.
  - change (dispatch b NavBar id st = (Ok tt, sent (fallbackCommand NavBar) [ArgId id] st')).
    rewrite (dispatch_verdict _ _ _ _ _ _ V), I. reflexivity.
  - change (dispatch b ActionMenu id st = (Ok tt, sent (fallbackCommand ActionMenu) [ArgId id] st')).
    rewrite (dispatch_verdict _ _ _ _ _ _ V), I. reflexivity.
Qed.

Lemma C2_fallback_names_witness :
  let st := moduleLoad true JsObject in
  initialized st = true /\
  verdict sampleBehaviour NavBar "a" st false st /\
  verdict sampleBehaviour ActionMenu "a" st false st /\
  outbox (snd (handleNavBarMenuItemPress sampleBehaviour "a" st)) =
  [mkMessage "handleNavBarMenuItemPress" [ArgId "a"]] /\
  outbox (snd (handleActionMenuItemPress sampleBehaviour "a" st)) =
  [mkMessage "handleActionMenuItemPress" [ArgId "a"]].
Proof.
  intros st.
  assert (Vn : verdict sampleBehaviour NavBar "a" st false st)
    by (apply verdict_absent; reflexivity).
  assert (Va : verdict sampleBehaviour ActionMenu "a" st false st)
    by (apply verdict_absent; reflexivity).
  destruct (C2_fallback_names sampleBehaviour "a" st st eq_refl) as [Hn Ha].
  split; [reflexivity|]. split; [exact Vn|]. split; [exact Va|]. split.
  - rewrite (Hn Vn). reflexivity.
  - rewrite (Ha Va). reflexivity.
Defined.

(** C2 as stated fails on the command names: an unhandled navigation-bar
    press sends handleNavBarMenuItemPress, not navBarMenuItemPress, and an
    unhandled action-menu press sends handleActionMenuItemPress, not
    actionMenuItemPress. *)
Lemma C2_counterexample :
  let st := moduleLoad true JsObject in
  let nav := outbox (snd (handleNavBarMenuItemPress sampleBehaviour "a" st)) in
  let act := outbox (snd (handleActionMenuItemPress sampleBehaviour "a" st)) in
  map func nav = ["handleNavBarMenuItemPress"] /\
  ~ In "navBarMenuItemPress" (map func nav) /\
  map func act = ["handleActionMenuItemPress"] /\
  ~ In "actionMenuItemPress" (map func act).
Proof.
  repeat split; simpl; intros [H | []]; discriminate H.
Qed.

(** C7.  If the registered handler of a channel throws during dispatch, the
    dispatch ends with that very fault, in the state the handler left:
    nothing is caught and no fallback command is sent for the event. *)
Theorem C7_handler_fault_propagates b c id st h reason st' :
  slot c st = Some h ->
  b h id st = (Throws reason, st') ->
  dispatch b c id st = (Err (HandlerFault reason), st') /\
  outbox (snd (dispatch b c id st)) = outbox st'.
Proof.
  intros Hs Hb. rewrite (dispatch_throws _ _ _ _ _ _ _ Hs Hb).
  split; reflexivity.
Qed.

Lemma C7_handler_fault_propagates_witness :
  let st := store ActionMenu (Some 2) (moduleLoad true JsObject) in
  dispatch sampleBehaviour ActionMenu "a" st = (Err (HandlerFault "boom"), st) /\
  outbox (snd (dispatch sampleBehaviour ActionMenu "a" st)) = [].
Proof.
  intros st.
  exact (C7_handler_fault_propagates sampleBehaviour ActionMenu "a" st 2 "boom" st
           eq_refl eq_refl).
Defined.

(** ** Define/show operations *)

(** C3.  Calling setUpViews, setNavBarMenu or showActionMenu while the
    session is not initialized raises the not-initialized failure to the
    caller and sends nothing. *)
Theorem C3_define_before_initialization d st :
  initialized st = false ->
  fst (define d st) = Err NotInitialized /\
  outbox (snd (define d st)) = outbox st.
Proof.
  intros H. rewrite (define_refused _ _ H). split; reflexivity.
Qed.

Lemma C3_define_before_initialization_witness :
  let st := moduleLoad false JsObject in
  fst (define (SetUpViews [mkViewConfiguration "v" "View" None] 0) st) = Err NotInitialized /\
  outbox (snd (define (SetUpViews [mkViewConfiguration "v" "View" None] 0) st)) = [].
Proof.
  intros st.
  exact (C3_define_before_initialization
           (SetUpViews [mkViewConfiguration "v" "View" None] 0) st eq_refl).
Defined.

(** C5.  Called with the session initialized, a define/show operation stores
    the supplied handler in the slot of its channel, whatever the slot held,
    then sends exactly one command, named after the operation, with the
    caller's payload as its sole argument, and returns no value. *)
Theorem C5_define_effect d st :
  initialized st = true ->
  define d st =
  (Ok tt, sent (commandOf d) [payloadOf d]
            (store (channelOf d) (Some (handlerOf d)) st)) /\
  slot (channelOf d) (snd (define d st)) = Some (handlerOf d) /\
  outbox (snd (define d st)) = outbox st ++ [mkMessage (commandOf d) [payloadOf d]].
Proof.
  intros H. rewrite (define_ready _ _ H). split; [reflexivity|]. split.
  - simpl snd. rewrite slot_sent. apply slot_store_same.
  - simpl snd. unfold sent. simpl. rewrite outbox_store. reflexivity.
Qed.

Lemma C5_define_effect_witness :
  let st := store NavBar (Some 0) (moduleLoad true JsObject) in
  slot NavBar (snd (setNavBarMenu [alpha] 1 st)) = Some 1 /\
  outbox (snd (setNavBarMenu [alpha] 1 st)) =
  [mkMessage "setNavBarMenu" [ArgItems [alpha]]].
Proof.
  intros st.
  destruct (C5_define_effect (SetNavBarMenu [alpha] 1) st eq_refl) as [_ [Hs Ho]].
  split; [exact Hs | exact Ho].
Defined.

(** C4.  For every channel: with the session initialized, calling the
    define/show operation of the channel with handler H1 and then again
    with handler H2 succeeds both times; the first call puts H1 in the
    slot and the second overwrites it, so that the slot holds H2; a
    following press on the channel runs H2, whose verdict, fault and
    effects are those of the dispatch, and its outcome is the same whatever
    any other handler, H1 included, would do. *)
Theorem C4_last_writer_wins b d1 d2 st :
  initialized st = true ->
  channelOf d1 = channelOf d2 ->
  let c := channelOf d2 in
  let r := (define d1 ;; define d2) st in
  (fst (define d1 st) = Ok tt /\
   slot c (snd (define d1 st)) = Some (handlerOf d1)) /\
  fst r = Ok tt /\
  slot c (snd r) = Some (handlerOf d2) /\
  (forall id handled st3,
      b (handlerOf d2) id (snd r) = (Returns handled, st3) ->
      verdict b c id (snd r) handled st3) /\
  (forall id reason st3,
      b (handlerOf d2) id (snd r) = (Throws reason, st3) ->
      dispatch b c id (snd r) = (Err (HandlerFault reason), st3)) /\
  (forall b' id,
      b' (handlerOf d2) id (snd r) = b (handlerOf d2) id (snd r) ->
      dispatch b' c id (snd r) = dispatch b c id (snd r)).
Proof.
  intros I Hc c r.
  set (st1 := sent (commandOf d1) [payloadOf d1]
                (store (channelOf d1) (Some (handlerOf d1)) st)).
  assert (E1 : define d1 st = (Ok tt, st1)) by exact (define_ready d1 st I).
  assert (I1 : initialized st1 = true).
  { unfold st1. rewrite initialized_sent, initialized_store. exact I. }
  assert (Hr : r = (Ok tt, sent (commandOf d2) [payloadOf d2]
                            (store c (Some (handlerOf d2)) st1))).
  { unfold r, bind. rewrite E1. exact (define_ready d2 st1 I1). }
  assert (Hs : slot c (snd r) = Some (handlerOf d2)).
  { rewrite Hr. simpl snd. rewrite slot_sent. apply slot_store_same. }
  split.
  { rewrite E1. split; [reflexivity|]. simpl snd. unfold st1, c.
    rewrite <- Hc, slot_sent. apply slot_store_same. }
  split; [rewrite Hr; reflexivity|]. split; [exact Hs|]. split; [|split].
  - intros id handled st3 Hb. exact (verdict_returned _ _ _ _ _ _ _ Hs Hb).
  - intros id reason st3 Hb. exact (dispatch_throws _ _ _ _ _ _ _ Hs Hb).
  - intros b' id Hb.
    destruct (b (handlerOf d2) id (snd r)) as [[handled | reason] st3] eqn:E.
    + rewrite (dispatch_verdict _ _ _ _ _ _ (verdict_returned _ _ _ _ _ _ _ Hs Hb)).
      rewrite (dispatch_verdict _ _ _ _ _ _ (verdict_returned _ _ _ _ _ _ _ Hs E)).
      reflexivity.
    + rewrite (dispatch_throws _ _ _ _ _ _ _ Hs Hb).
      rewrite (dispatch_throws _ _ _ _ _ _ _ Hs E).
      reflexivity.
Qed.

Lemma C4_last_writer_wins_witness :
  let st := moduleLoad true JsObject in
  let p1 := mkActionMenuParameters "First" [alpha] in
  let p2 := mkActionMenuParameters "Second" [alpha] in
  let r := (showActionMenu p1 2 ;; showActionMenu p2 0) st in
  slot ActionMenu (snd (showActionMenu p1 2 st)) = Some 2 /\
  fst r = Ok tt /\
  slot ActionMenu (snd r) = Some 0 /\
  verdict sampleBehaviour ActionMenu "a" (snd r) true (snd r) /\
  dispatch sampleBehaviour ActionMenu "a" (snd r) = (Ok tt, snd r).
Proof.
  intros st p1 p2 r.
  destruct (C4_last_writer_wins sampleBehaviour
              (ShowActionMenu p1 2) (ShowActionMenu p2 0) st eq_refl eq_refl)
    as [[_ H0] [H1 [H2 [H3 _]]]].
  split; [exact H0|]. split; [exact H1|]. split; [exact H2|].
  split; [exact (H3 "a" true (snd r) eq_refl) | reflexivity].
Defined.

(** C9.  A define/show operation that fails with the not-initialized error
    leaves the slot of its channel as it was: the guard runs before the
    store, so the whole state is the one before the call. *)
Theorem C9_define_failure_keeps_slot d st :
  fst (define d st) = Err NotInitialized ->
  slot (channelOf d) (snd (define d st)) = slot (channelOf d) st /\
  snd (define d st) = st.
Proof.
  intros F. destruct (initialized st) eqn:I.
  - rewrite (define_ready _ _ I) in F. discriminate F.
  - rewrite (define_refused _ _ I). split; reflexivity.
Qed.

Lemma C9_define_failure_keeps_slot_witness :
  let st := mkState false JsObject [] [] (Some 0) None None in
  slot NavBar (snd (setNavBarMenu [alpha] 1 st)) = Some 0 /\
  snd (setNavBarMenu [alpha] 1 st) = st.
Proof.
  intros st.
  exact (C9_define_failure_keeps_slot (SetNavBarMenu [alpha] 1) st eq_refl).
Defined.

(** C10.  A successful define/show operation writes the slot of its own
    channel only: the slots of the other two channels hold what they held
    before the call. *)
Theorem C10_define_frame d st c :
  fst (define d st) = Ok tt ->
  c <> channelOf d ->
  slot c (snd (define d st)) = slot c st.
Proof.
  intros S N. destruct (initialized st) eqn:I.
  - rewrite (define_ready _ _ I). simpl snd.
    rewrite slot_sent. apply slot_store_other. exact N.
  - rewrite (define_refused _ _ I) in S. discriminate S.
Qed.

Lemma C10_define_frame_witness :
  let st := mkState true JsObject [] [] (Some 0) (Some 1) (Some 2) in
  slot NavBar (snd (setUpViews [mkViewConfiguration "v" "View" None] 4 st)) = Some 0 /\
  slot ActionMenu (snd (setUpViews [mkViewConfiguration "v" "View" None] 4 st)) = Some 1.
Proof.
  intros st. split.
  - apply (C10_define_frame (SetUpViews [mkViewConfiguration "v" "View" None] 4) st NavBar);
      [reflexivity | discriminate].
  - apply (C10_define_frame (SetUpViews [mkViewConfiguration "v" "View" None] 4) st ActionMenu);
      [reflexivity | discriminate].
Defined.

(** C8.  Called with the session initialized, a define/show operation does
    not read the menus flag of the capability registry: changing the flag
    changes nothing else in the outcome, and the command is sent also when
    isSupported answers false. *)
Theorem C8_define_ignores_capability d st :
  initialized st = true ->
  (forall v, define d (set_supports_menus v st) =
             (Ok tt, set_supports_menus v (snd (define d st)))) /\
  (fst (isSupported st) = Ok false ->
   fst (define d st) = Ok tt /\
   outbox (snd (define d st)) = outbox st ++ [mkMessage (commandOf d) [payloadOf d]]).
Proof.
  intros I. split.
  - intros v. rewrite (define_ready d st I).
    rewrite (define_ready d (set_supports_menus v st) I).
    destruct d; reflexivity.
  - intros _. rewrite (define_ready d st I). split; [reflexivity|].
    simpl snd. unfold sent. simpl. rewrite outbox_store. reflexivity.
Qed.

Lemma C8_define_ignores_capability_witness :
  let st := moduleLoad true JsUndefined in
  fst (isSupported st) = Ok false /\
  fst (showActionMenu (mkActionMenuParameters "Actions" [alpha]) 0 st) = Ok tt /\
  outbox (snd (showActionMenu (mkActionMenuParameters "Actions" [alpha]) 0 st)) =
  [mkMessage "showActionMenu" [ArgParams (mkActionMenuParameters "Actions" [alpha])]].
Proof.
  intros st. split; [reflexivity|].
  destruct (C8_define_ignores_capability
              (ShowActionMenu (mkActionMenuParameters "Actions" [alpha]) 0) st eq_refl)
    as [_ H].
  exact (H eq_refl).
Defined.

(** ** Capability query *)

(** C6.  isSupported answers false while the menus flag of the registry is
    absent, answers the flag itself once the flag is a boolean (and true
    for an object), and in every case leaves the whole state, outbox,
    registrations and slots, as it was. *)
Theorem C6_isSupported st :
  isSupported st = (Ok (truthy (supports_menus st)), st) /\
  isSupported (set_supports_menus JsUndefined st) =
  (Ok false, set_supports_menus JsUndefined st) /\
  (forall v : bool, isSupported (set_supports_menus (JsBoolean v) st) =
                    (Ok v, set_supports_menus (JsBoolean v) st)) /\
  isSupported (set_supports_menus JsObject st) =
  (Ok true, set_supports_menus JsObject st).
Proof.
  split; [|split; [|split]].
  - unfold isSupported, bind, gets, ret.
    destruct (truthy (supports_menus st)); reflexivity.
  - reflexivity.
  - intros []; reflexivity.
  - reflexivity.
Qed.

(** ** Worked scenarios *)

(** A navigation-bar menu with the single entry alpha and a handler that
    consumes the press: nothing goes back to the host. *)
Example scenario_consumed :
  let st := snd (setNavBarMenu [alpha] 0 (moduleLoad true JsObject)) in
  dispatch sampleBehaviour NavBar "a" st = (Ok tt, st).
Proof. reflexivity. Qed.

(** The registrations made at start-up: three inbound names, none of them
    waiting for the session to be initialized. *)
Example scenario_initialize :
  registrations (snd (initialize (moduleLoad false JsUndefined))) =
  [mkRegistration "navBarMenuItemPress" NavBar false;
   mkRegistration "actionMenuItemPress" ActionMenu false;
   mkRegistration "setModuleView" ViewConfig false].
Proof. reflexivity. Qed.

(** A handler that registers itself again while it runs and then declines:
    its own send comes first, the fallback of the dispatch after it. *)
Example scenario_reentrant :
  let st := snd (setNavBarMenu [alpha] 3 (moduleLoad true JsObject)) in
  map func (outbox (snd (dispatch sampleBehaviour NavBar "b" st))) =
  ["setNavBarMenu"; "setNavBarMenu"; "handleNavBarMenuItemPress"].
Proof. reflexivity. Qed.

(** * Further properties of the namespace *)

(** ** Case analyses shared by the proofs below *)

Lemma define_cases d st :
  (initialized st = true /\
   define d st = (Ok tt, sent (commandOf d) [payloadOf d]
                           (store (channelOf d) (Some (handlerOf d)) st))) \/
  (initialized st = false /\ define d st = (Err NotInitialized, st)).
Proof.
  destruct (initialized st) eqn:I.
  - left. split; [reflexivity | apply define_ready; exact I].
  - right. split; [reflexivity | apply define_refused; exact I].
Qed.

Lemma dispatch_cases b c id st :
  let st' := handlerState b c id st in
  dispatch b c id st = (Ok tt, st') \/
  (initialized st' = true /\
   dispatch b c id st = (Ok tt, sent (fallbackCommand c) [ArgId id] st')) \/
  (initialized st' = false /\ dispatch b c id st = (Err NotInitialized, st')) \/
  (exists h reason,
      slot c st = Some h /\ fst (b h id st) = Throws reason /\
      dispatch b c id st = (Err (HandlerFault reason), st')).
Proof.
  unfold handlerState. destruct (slot c st) as [h|] eqn:Hs.
  - destruct (b h id st) as [[handled | reason] st1] eqn:Hb; simpl snd.
    + rewrite (dispatch_verdict _ _ _ _ _ _ (verdict_returned _ _ _ _ _ _ _ Hs Hb)).
      destruct handled; [left; reflexivity|].
      destruct (initialized st1); [right; left | right; right; left];
        split; reflexivity.
    + right; right; right. exists h, reason.
      split; [reflexivity|]. split; [rewrite Hb; reflexivity|].
      exact (dispatch_throws _ _ _ _ _ _ _ Hs Hb).
  - rewrite (dispatch_verdict _ _ _ _ _ _ (verdict_absent b c id st Hs)).
    destruct (initialized st); [right; left | right; right; left];
      split; reflexivity.
Qed.

Lemma dispatch_state b c id st :
  let st' := handlerState b c id st in
  snd (dispatch b c id st) = st' \/
  (initialized st' = true /\
   snd (dispatch b c id st) = sent (fallbackCommand c) [ArgId id] st').
Proof.
  intros st'.
  destruct (dispatch_cases b c id st) as [E | [[I E] | [[I E] | [h [r [_ [_ E]]]]]]];
    fold st' in E; rewrite E; simpl snd; auto.
Qed.

Lemma handlerState_keeps {A : Type} (f : State -> A) b c id st :
  keeps f b -> f (handlerState b c id st) = f st.
Proof.
  intros K. unfold handlerState. destruct (slot c st); [apply K | reflexivity].
Qed.

Lemma initialize_run st :
  initialize st =
  (Ok tt, set_registrations
            (registrations st ++
             [mkRegistration "navBarMenuItemPress" NavBar false;
              mkRegistration "actionMenuItemPress" ActionMenu false;
              mkRegistration "setModuleView" ViewConfig false]) st).
Proof.
  unfold initialize, bind, registerHandler, modify, set_registrations. simpl.
  rewrite <- !app_assoc. reflexivity.
Qed.

Lemma isSupported_run st : isSupported st = (Ok (truthy (supports_menus st)), st).
Proof.
  unfold isSupported, bind, gets, ret.
  destruct (truthy (supports_menus st)); reflexivity.
Qed.

Lemma run_cons b k ks st : run b (k :: ks) st = run b ks (after b k st).
Proof. reflexivity. Qed.

Lemma Channel_eqb_eq c c' : Channel_eqb c c' = true <-> c = c'.
Proof. destruct c, c'; simpl; split; intros H; try reflexivity; discriminate H. Qed.

Lemma slot_set_registrations c r st : slot c (set_registrations r st) = slot c st.
Proof. destruct c; reflexivity. Qed.

(** One call moves the slot of a channel as a define/show call on that
    channel overwrites a cell, provided the session is initialized; with
    the session not initialized the slot stays. *)
Lemma slot_after b c k st :
  keeps (slot c) b ->
  slot c (after b k st) =
  if initialized st then overwrite c (slot c st) k else slot c st.
Proof.
  intros K. destruct k as [| d | c2 id |]; unfold after, overwrite.
  - rewrite initialize_run. simpl snd. rewrite slot_set_registrations.
    destruct (initialized st); reflexivity.
  - destruct (define_cases d st) as [[I E] | [I E]]; rewrite E, I; simpl snd.
    + rewrite slot_sent. destruct (Channel_eqb (channelOf d) c) eqn:Q.
      * apply Channel_eqb_eq in Q. subst c. apply slot_store_same.
      * apply slot_store_other. intros ->.
        assert (T : Channel_eqb (channelOf d) (channelOf d) = true)
          by (apply Channel_eqb_eq; reflexivity).
        rewrite T in Q. discriminate Q.
    + reflexivity.
  - assert (S : slot c (snd (dispatch b c2 id st)) = slot c st).
    { destruct (dispatch_state b c2 id st) as [E | [_ E]]; rewrite E;
        [| rewrite slot_sent]; apply handlerState_keeps; exact K. }
    rewrite S. destruct (initialized st); reflexivity.
  - rewrite isSupported_run. destruct (initialized st); reflexivity.
Qed.

Lemma initialized_after b k st :
  keeps initialized b -> initialized (after b k st) = initialized st.
Proof.
  intros K. destruct k as [| d | c id |]; unfold after.
  - rewrite initialize_run. reflexivity.
  - destruct (define_cases d st) as [[_ E] | [_ E]]; rewrite E; simpl snd;
      [rewrite initialized_sent, initialized_store|]; reflexivity.
  - destruct (dispatch_state b c id st) as [E | [_ E]]; rewrite E;
      [| rewrite initialized_sent]; apply handlerState_keeps; exact K.
  - rewrite isSupported_run. reflexivity.
Qed.

Lemma supports_menus_after b k st :
  keeps supports_menus b -> supports_menus (after b k st) = supports_menus st.
Proof.
  intros K. destruct k as [| d | c id |]; unfold after.
  - rewrite initialize_run. reflexivity.
  - destruct (define_cases d st) as [[_ E] | [_ E]]; rewrite E; simpl snd;
      [destruct d|]; reflexivity.
  - destruct (dispatch_state b c id st) as [E | [_ E]]; rewrite E;
      [| change (supports_menus (handlerState b c id st) = supports_menus st)];
      apply handlerState_keeps; exact K.
  - rewrite isSupported_run. reflexivity.
Qed.

Lemma outbox_after b k st :
  keeps outbox b ->
  outbox (after b k st) = outbox st \/
  exists m, messageOf k = Some m /\ outbox (after b k st) = outbox st ++ [m].
Proof.
  intros K. destruct k as [| d | c id |]; unfold after.
  - left. rewrite initialize_run. reflexivity.
  - destruct (define_cases d st) as [[_ E] | [_ E]]; rewrite E; simpl snd.
    + right. exists (mkMessage (commandOf d) [payloadOf d]).
      split; [reflexivity|]. unfold sent. simpl. rewrite outbox_store. reflexivity.
    + left. reflexivity.
  - destruct (dispatch_state b c id st) as [E | [_ E]]; rewrite E.
    + left. apply handlerState_keeps. exact K.
    + right. exists (mkMessage (fallbackCommand c) [ArgId id]).
      split; [reflexivity|]. unfold sent. simpl.
      rewrite (handlerState_keeps outbox b c id st K). reflexivity.
  - left. rewrite isSupported_run. reflexivity.
Qed.

Lemma messageOf_one_argument k m : messageOf k = Some m -> length (args m) = 1.
Proof.
  destruct k; simpl; intros H; try discriminate H; injection H as <-; reflexivity.
Qed.

(** ** Single calls *)

(** X1.  A define/show operation succeeds exactly when the session is
    initialized; the only failure it can raise is the not-initialized one,
    and a failed call leaves the state as it found it. *)
Theorem define_outcome d st :
  (fst (define d st) = Ok tt <-> initialized st = true) /\
  (forall e, fst (define d st) = Err e ->
             e = NotInitialized /\ snd (define d st) = st).
Proof.
  destruct (define_cases d st) as [[I E] | [I E]]; rewrite E; simpl fst; simpl snd.
  - split; [split; intros _; [exact I | reflexivity] | intros e H; discriminate H].
  - split.
    + split; intros H; [discriminate H | rewrite I in H; discriminate H].
    + intros e H. injection H as <-. split; reflexivity.
Qed.

(** X2.  A dispatch writes no handler slot, no registration and no flag:
    beyond what the handler itself did, the only change it can make is one
    fallback message of its own channel, carrying the identifier, at the
    end of the outbox. *)
Theorem dispatch_frame b c id st :
  let st' := handlerState b c id st in
  let r := dispatch b c id st in
  (forall c', slot c' (snd r) = slot c' st') /\
  registrations (snd r) = registrations st' /\
  initialized (snd r) = initialized st' /\
  supports_menus (snd r) = supports_menus st' /\
  (outbox (snd r) = outbox st' \/
   outbox (snd r) = outbox st' ++ [mkMessage (fallbackCommand c) [ArgId id]]).
Proof.
  intros st' r. subst r.
  destruct (dispatch_state b c id st) as [E | [_ E]]; fold st' in E; rewrite E.
  - repeat split. left. reflexivity.
  - split; [intros c'; apply slot_sent|]. repeat split. right. reflexivity.
Qed.

Lemma verdict_registered b c id st handled st' h out st1 :
  verdict b c id st handled st' ->
  slot c st = Some h ->
  b h id st = (out, st1) ->
  out = Returns handled /\ st1 = st'.
Proof.
  intros V Hs Hb. destruct V as [h' handled st' Hs' Hb' | Hs'].
  - rewrite Hs in Hs'. injection Hs' as <-. rewrite Hb in Hb'.
    injection Hb' as -> ->. split; reflexivity.
  - rewrite Hs in Hs'. discriminate Hs'.
Qed.

(** X3.  A dispatch fails in two cases and in no other: with the
    not-initialized failure, exactly when the press was not consumed (no
    handler is registered or the handler returned false) and the session is
    not initialized; or with the fault of the handler registered on its
    channel, exactly when that handler throws.  In both cases the dispatch
    sent nothing: it ends in the state the handler left. *)
Theorem dispatch_errors b c id st e :
  let st' := handlerState b c id st in
  (fst (dispatch b c id st) = Err e <->
   (e = NotInitialized /\
    verdict b c id st false st' /\
    initialized st' = false) \/
   (exists h reason,
       slot c st = Some h /\ fst (b h id st) = Throws reason /\
       e = HandlerFault reason)) /\
  (fst (dispatch b c id st) = Err e -> snd (dispatch b c id st) = st').
Proof.
  unfold handlerState. destruct (slot c st) as [h|] eqn:Hs.
  - destruct (b h id st) as [[handled | reason] st1] eqn:Hb; simpl snd.
    + pose proof (verdict_returned _ _ _ _ _ _ _ Hs Hb) as V.
      rewrite (dispatch_verdict _ _ _ _ _ _ V).
      destruct handled; [| destruct (initialized st1) eqn:I]; simpl fst; simpl snd.
      * split; [split|]; try (intros H; discriminate H).
        intros [[_ [V' _]] | [h' [r' [Hs' [Hb' _]]]]].
        -- destruct (verdict_registered _ _ _ _ _ _ _ _ _ V' Hs Hb) as [D _].
           discriminate D.
        -- injection Hs' as <-. rewrite Hb in Hb'. discriminate Hb'.
      * split; [split|]; try (intros H; discriminate H).
        intros [[_ [_ F]] | [h' [r' [Hs' [Hb' _]]]]].
        -- discriminate F.
        -- injection Hs' as <-. rewrite Hb in Hb'. discriminate Hb'.
      * split; [split|].
        -- intros H. injection H as <-. left. repeat split. exact V.
        -- intros [[-> _] | [h' [r' [Hs' [Hb' _]]]]]; [reflexivity|].
           injection Hs' as <-. rewrite Hb in Hb'. discriminate Hb'.
        -- reflexivity.
    + rewrite (dispatch_throws _ _ _ _ _ _ _ Hs Hb). simpl fst; simpl snd.
      split; [split|].
      * intros H. injection H as <-. right. exists h, reason.
        rewrite Hb. repeat split.
      * intros [[_ [V' _]] | [h' [r' [Hs' [Hb' ->]]]]].
        -- destruct (verdict_registered _ _ _ _ _ _ _ _ _ V' Hs Hb) as [D _].
           discriminate D.
        -- injection Hs' as <-. rewrite Hb in Hb'. simpl in Hb'.
           injection Hb' as <-. reflexivity.
      * reflexivity.
  - pose proof (verdict_absent b c id st Hs) as V.
    rewrite (dispatch_verdict _ _ _ _ _ _ V).
    destruct (initialized st) eqn:I; simpl fst; simpl snd.
    + split; [split|]; try (intros H; discriminate H).
      intros [[_ [_ F]] | [h' [r' [Hs' _]]]]; discriminate.
    + split; [split|].
      * intros H. injection H as <-. left. repeat split. exact V.
      * intros [[-> _] | [h' [r' [Hs' _]]]]; [reflexivity | discriminate Hs'].
      * reflexivity.
Qed.

Lemma dispatch_errors_witness :
  let st := store ViewConfig (Some 1) (moduleLoad false JsObject) in
  let consumed := store ViewConfig (Some 0) (moduleLoad false JsObject) in
  fst (dispatch sampleBehaviour ViewConfig "v" st) = Err NotInitialized /\
  snd (dispatch sampleBehaviour ViewConfig "v" st) = st /\
  verdict sampleBehaviour ViewConfig "v" st false st /\
  fst (dispatch sampleBehaviour ViewConfig "v" consumed) <> Err NotInitialized.
Proof.
  intros st consumed.
  destruct (dispatch_errors sampleBehaviour ViewConfig "v" st NotInitialized)
    as [[F _] S].
  destruct (F eq_refl) as [[_ [V _]] | [h [r [_ [_ D]]]]]; [| discriminate D].
  split; [reflexivity|]. split; [exact (S eq_refl)|]. split; [exact V|].
  intros H.
  destruct (dispatch_errors sampleBehaviour ViewConfig "v" consumed NotInitialized)
    as [[F' _] _].
  destruct (F' H) as [[_ [V' _]] | [h [r [_ [_ D]]]]]; [| discriminate D].
  destruct (verdict_registered _ _ _ _ _ _ 0 _ _ V' eq_refl eq_refl) as [D _].
  discriminate D.
Defined.

(** X4.  A dispatch calls no handler but the one in the slot of its own
    channel: two worlds whose handlers agree on that one call give the same
    dispatch, whatever the handlers of the other channels would do. *)
Theorem dispatch_only_own_handler b b' c id st :
  (forall h, slot c st = Some h -> b' h id st = b h id st) ->
  dispatch b' c id st = dispatch b c id st.
Proof.
  intros H. destruct (slot c st) as [h|] eqn:Hs.
  - specialize (H h eq_refl).
    destruct (b h id st) as [[handled | reason] st1] eqn:Hb.
    + rewrite (dispatch_verdict _ _ _ _ _ _ (verdict_returned _ _ _ _ _ _ _ Hs H)).
      rewrite (dispatch_verdict _ _ _ _ _ _ (verdict_returned _ _ _ _ _ _ _ Hs Hb)).
      reflexivity.
    + rewrite (dispatch_throws _ _ _ _ _ _ _ Hs H).
      rewrite (dispatch_throws _ _ _ _ _ _ _ Hs Hb).
      reflexivity.
  - rewrite (dispatch_verdict _ _ _ _ _ _ (verdict_absent b' c id st Hs)).
    rewrite (dispatch_verdict _ _ _ _ _ _ (verdict_absent b c id st Hs)).
    reflexivity.
Qed.

Lemma dispatch_only_own_handler_witness :
  let st := mkState true JsObject [] [] (Some 1) (Some 3) (Some 2) in
  pureBehaviour 3 "a" st <> sampleBehaviour 3 "a" st /\
  dispatch pureBehaviour NavBar "a" st = dispatch sampleBehaviour NavBar "a" st.
Proof.
  intros st. split; [intros H; discriminate H|].
  apply (dispatch_only_own_handler sampleBehaviour pureBehaviour NavBar "a" st).
  intros h E. injection E as <-. reflexivity.
Defined.

(** X10.  On first use, when none of its three inbound names is registered
    yet, initialize succeeds whether or not the session is initialized,
    sends nothing, touches no slot and no flag, and adds exactly three
    registrations: navBarMenuItemPress for the navigation bar,
    actionMenuItemPress for the action menu and setModuleView for the view
    configuration, none of them announced to the host.  Afterwards each of
    the three names is registered for that channel and no other, and none
    of them is the name of the fallback command its channel sends. *)
Theorem initialize_registers st :
  (forall r, In r (registrations st) -> ~ In (reg_name r) inboundNames) ->
  let regs := [mkRegistration "navBarMenuItemPress" NavBar false;
               mkRegistration "actionMenuItemPress" ActionMenu false;
               mkRegistration "setModuleView" ViewConfig false] in
  initialize st = (Ok tt, set_registrations (registrations st ++ regs) st) /\
  map reg_name regs = inboundNames /\
  (forall r, In r (registrations (snd (initialize st))) ->
             In (reg_name r) inboundNames -> In r regs) /\
  Forall (fun r => reg_name r <> fallbackCommand (reg_channel r)) regs.
Proof.
  intros Fresh regs. rewrite initialize_run. fold regs.
  split; [reflexivity|]. split; [reflexivity|]. split.
  - intros r H N. simpl snd in H.
    change (In r (registrations st ++ regs)) in H.
    apply in_app_or in H. destruct H as [H | H]; [| exact H].
    contradiction (Fresh r H N).
  - repeat constructor; simpl; intros H; discriminate H.
Qed.

Lemma initialize_registers_witness :
  let st := moduleLoad false JsUndefined in
  initialize st =
  (Ok tt, set_registrations
            [mkRegistration "navBarMenuItemPress" NavBar false;
             mkRegistration "actionMenuItemPress" ActionMenu false;
             mkRegistration "setModuleView" ViewConfig false] st).
Proof.
  intros st.
  destruct (initialize_registers st (fun r (H : In r []) => match H with end))
    as [E _].
  exact E.
Defined.

(** ** Sequences of calls *)

(** X5.  While the session is not initialized the namespace is inert:
    starting from module load, whatever calls are made and whatever the
    handlers would do, no slot is filled, nothing is sent, only the
    registrations grow; every press and every define/show call fails with
    the not-initialized failure and changes nothing. *)
Theorem inert_before_initialization b flag ks :
  exists regs,
    let st := set_registrations regs (moduleLoad false flag) in
    run b ks (moduleLoad false flag) = st /\
    (forall c id, dispatch b c id st = (Err NotInitialized, st)) /\
    (forall d, define d st = (Err NotInitialized, st)).
Proof.
  assert (P : forall c id regs,
             dispatch b c id (set_registrations regs (moduleLoad false flag)) =
             (Err NotInitialized, set_registrations regs (moduleLoad false flag))).
  { intros c id regs.
    assert (Hs : slot c (set_registrations regs (moduleLoad false flag)) = None)
      by (destruct c; reflexivity).
    rewrite (dispatch_verdict _ _ _ _ _ _ (verdict_absent b c id _ Hs)).
    reflexivity. }
  assert (G : forall regs,
             exists regs', run b ks (set_registrations regs (moduleLoad false flag)) =
                           set_registrations regs' (moduleLoad false flag)).
  { induction ks as [| k ks IH]; intros regs.
    - exists regs. reflexivity.
    - rewrite run_cons. destruct k as [| d | c id |]; unfold after.
      + rewrite initialize_run. apply IH.
      + rewrite define_refused by reflexivity. apply IH.
      + rewrite P. apply IH.
      + rewrite isSupported_run. apply IH. }
  destruct (G []) as [regs E]. exists regs. split; [exact E|]. split.
  - intros c id. apply P.
  - intros d. apply define_refused. reflexivity.
Qed.

(** X6.  Over any sequence of calls made with the session initialized, the
    slot of a channel behaves as a single cell that each define/show call
    on that channel overwrites and every other call leaves alone, provided
    the handlers themselves leave the session flag and that slot alone. *)
Theorem slot_after_run b c ks st :
  keeps initialized b ->
  keeps (slot c) b ->
  initialized st = true ->
  slot c (run b ks st) = fold_left (overwrite c) ks (slot c st).
Proof.
  intros Ki Ks. revert st. induction ks as [| k ks IH]; intros st I.
  - reflexivity.
  - rewrite run_cons. simpl fold_left. rewrite IH.
    + rewrite (slot_after b c k st Ks), I. reflexivity.
    + rewrite (initialized_after b k st Ki). exact I.
Qed.

Lemma slot_after_run_witness :
  let ks := [CallDefine (SetNavBarMenu [alpha] 0);
             CallPress NavBar "a";
             CallDefine (ShowActionMenu (mkActionMenuParameters "Actions" [alpha]) 2);
             CallInitialize;
             CallDefine (SetNavBarMenu [] 1);
             CallPress ActionMenu "b";
             CallIsSupported] in
  slot NavBar (run pureBehaviour ks (moduleLoad true JsObject)) = Some 1.
Proof.
  intros ks.
  rewrite (slot_after_run pureBehaviour NavBar ks (moduleLoad true JsObject)
             (fun _ _ _ => eq_refl) (fun _ _ _ => eq_refl) eq_refl).
  reflexivity.
Defined.

(** X7.  Only a define/show call on a channel changes the slot of that
    channel: over any sequence of calls with no define/show call on the
    channel (presses on any channel, initialize, isSupported, define/show
    calls on the other channels), with the session initialized or not, its
    slot holds what it held before; provided the handlers themselves leave
    that slot alone. *)
Theorem slot_changed_only_by_define b c ks st :
  keeps (slot c) b ->
  forallb (fun k => negb (definesOn c k)) ks = true ->
  slot c (run b ks st) = slot c st.
Proof.
  intros K. revert st. induction ks as [| k ks IH]; intros st H.
  - reflexivity.
  - simpl forallb in H. apply andb_prop in H. destruct H as [Hk Hks].
    rewrite run_cons, (IH _ Hks), (slot_after b c k st K).
    destruct (initialized st); [| reflexivity].
    destruct k as [| d | |]; unfold overwrite; try reflexivity.
    simpl in Hk. destruct (Channel_eqb (channelOf d) c); [discriminate Hk | reflexivity].
Qed.

Lemma slot_changed_only_by_define_witness :
  let st := mkState true JsObject [] [] (Some 1) None (Some 2) in
  let ks := [CallDefine (ShowActionMenu (mkActionMenuParameters "Actions" [alpha]) 0);
             CallPress NavBar "a"; CallInitialize;
             CallDefine (SetUpViews [] 0); CallPress ViewConfig "v"] in
  slot NavBar (run pureBehaviour ks st) = Some 1.
Proof.
  intros st ks.
  exact (slot_changed_only_by_define pureBehaviour NavBar ks st
           (fun _ _ _ => eq_refl) eq_refl).
Defined.

(** X8.  Each call sends at most one message, and only its own: over any
    sequence of calls the outbox only grows at its end, and the messages
    added come from the calls in the order of the calls, a define/show call
    giving its command with the payload it was given or nothing, a press
    giving the fallback command of its channel with the identifier it was
    given or nothing, the other calls nothing; so there are no more
    messages than calls and each has exactly one argument; provided the
    handlers themselves leave the outbox alone. *)
Theorem outbox_after_run b ks st :
  keeps outbox b ->
  exists ms,
    outbox (run b ks st) = outbox st ++ ms /\
    sentBy ks ms /\
    length ms <= length ks /\
    Forall (fun m => length (args m) = 1) ms.
Proof.
  intros K. revert st. induction ks as [| k ks IH]; intros st.
  - exists []. split; [symmetry; apply app_nil_r|].
    split; [constructor|]. split; [apply le_n | constructor].
  - rewrite run_cons. destruct (IH (after b k st)) as [ms [E [S [L F]]]].
    destruct (outbox_after b k st K) as [O | [m [Hm O]]]; rewrite O in E.
    + exists ms. split; [exact E|]. split; [constructor; exact S|].
      split; [simpl; lia | exact F].
    + exists (m :: ms). split; [rewrite E, <- app_assoc; reflexivity|].
      split; [apply sentBy_one; assumption|].
      split; [simpl; lia|]. constructor; [| exact F].
      exact (messageOf_one_argument k m Hm).
Qed.

Lemma outbox_after_run_witness :
  let ks := [CallDefine (SetNavBarMenu [alpha] 1); CallPress NavBar "a";
             CallPress ActionMenu "b"; CallIsSupported] in
  exists ms,
    outbox (run pureBehaviour ks (moduleLoad true JsObject)) = [] ++ ms /\
    sentBy ks ms /\
    length ms <= 4 /\
    Forall (fun m => length (args m) = 1) ms.
Proof.
  intros ks.
  exact (outbox_after_run pureBehaviour ks (moduleLoad true JsObject)
           (fun _ _ _ => eq_refl)).
Defined.

(** X9.  No call of the namespace changes the session flag or the menus
    flag of the registry: after any sequence of calls the session is
    initialized exactly if it was, and isSupported gives the answer it gave
    before; provided the handlers themselves leave the two flags alone. *)
Theorem flags_after_run b ks st :
  keeps initialized b ->
  keeps supports_menus b ->
  initialized (run b ks st) = initialized st /\
  supports_menus (run b ks st) = supports_menus st /\
  fst (isSupported (run b ks st)) = fst (isSupported st).
Proof.
  intros Ki Ks.
  assert (H : initialized (run b ks st) = initialized st /\
              supports_menus (run b ks st) = supports_menus st).
  { revert st. induction ks as [| k ks IH]; intros st.
    - split; reflexivity.
    - rewrite run_cons. destruct (IH (after b k st)) as [E1 E2].
      rewrite E1, E2, (initialized_after b k st Ki), (supports_menus_after b k st Ks).
      split; reflexivity. }
  destruct H as [H1 H2]. split; [exact H1|]. split; [exact H2|].
  rewrite !isSupported_run. simpl fst. rewrite H2. reflexivity.
Qed.

Lemma flags_after_run_witness :
  let ks := [CallInitialize; CallDefine (SetUpViews [] 0); CallPress ViewConfig "v"] in
  let st := moduleLoad true JsUndefined in
  initialized (run pureBehaviour ks st) = true /\
  supports_menus (run pureBehaviour ks st) = JsUndefined /\
  fst (isSupported (run pureBehaviour ks st)) = Ok false.
Proof.
  intros ks st.
  exact (flags_after_run pureBehaviour ks st (fun _ _ _ => eq_refl) (fun _ _ _ => eq_refl)).
Defined.

(** * Properties of the bundle-size tool *)

Section LastCommit.

Import BundleSizeTools.

Context {number GitCommitRef CommitId Reason : Type}.
Variable commitId : GitCommitRef -> CommitId.

Implicit Types (conn : WebApi number GitCommitRef Reason)
         (prId : number) (repoGuid : string).

(** X11.  getLastCommitHashFromPR resolves exactly when the connection
    yields a git client, that client, asked with the repository first and
    the pull request second, yields a commit list that is not empty; the
    value is then the commit id of the first entry of the list, whatever
    follows it. *)
Theorem getLastCommitHashFromPR_fulfilled conn prId repoGuid hash :
  getLastCommitHashFromPR commitId conn prId repoGuid = Fulfilled hash <->
  exists gitApi first rest,
    getGitApi conn = Fulfilled gitApi /\
    getPullRequestCommits gitApi repoGuid prId = Fulfilled (first :: rest) /\
    commitId first = hash.
Proof.
  unfold getLastCommitHashFromPR, await. split.
  - destruct (getGitApi conn) as [gitApi | r]; [| discriminate].
    destruct (getPullRequestCommits gitApi repoGuid prId) as [[| first rest] | r] eqn:E;
      simpl; try discriminate.
    intros H. injection H as <-. exists gitApi, first, rest.
    split; [reflexivity|]. split; [exact E | reflexivity].
  - intros [gitApi [first [rest [E1 [E2 E3]]]]]. rewrite E1, E2. simpl.
    rewrite E3. reflexivity.
Qed.

(** X12.  getLastCommitHashFromPR passes a rejection on as it is and
    resolves nothing in its place: when the connection rejects, the
    function rejects with the same reason; when the commit query rejects,
    the function rejects with the same reason; and when the commit list is
    empty, reading the commit id off the missing first entry makes the
    function reject with a type error. *)
Theorem getLastCommitHashFromPR_rejected conn prId repoGuid :
  (forall r,
      getGitApi conn = Rejected r ->
      getLastCommitHashFromPR commitId conn prId repoGuid = Rejected r) /\
  (forall gitApi r,
      getGitApi conn = Fulfilled gitApi ->
      getPullRequestCommits gitApi repoGuid prId = Rejected r ->
      getLastCommitHashFromPR commitId conn prId repoGuid = Rejected r) /\
  (forall gitApi,
      getGitApi conn = Fulfilled gitApi ->
      getPullRequestCommits gitApi repoGuid prId = Fulfilled [] ->
      getLastCommitHashFromPR commitId conn prId repoGuid = Rejected TypeError).
Proof.
  unfold getLastCommitHashFromPR, await. split; [| split].
  - intros r E. rewrite E. reflexivity.
  - intros gitApi r E1 E2. rewrite E1, E2. reflexivity.
  - intros gitApi E1 E2. rewrite E1, E2. reflexivity.
Qed.

End LastCommit.

(** A pull request with two commits: the hash is that of the entry the
    service lists first; asked with the arguments the other way round the
    same service has nothing to list and the function rejects. *)
Example scenario_last_commit :
  let api := BundleSizeTools.mkGitApi (Reason := string)
               (fun repo pr => if andb (String.eqb repo "repo-guid") (Nat.eqb pr 7)
                               then BundleSizeTools.Fulfilled ["c2"; "c1"]
                               else BundleSizeTools.Fulfilled []) in
  let conn := BundleSizeTools.mkWebApi (BundleSizeTools.Fulfilled api) in
  BundleSizeTools.getLastCommitHashFromPR (fun c : string => c) conn 7 "repo-guid" =
  BundleSizeTools.Fulfilled "c2" /\
  BundleSizeTools.getLastCommitHashFromPR (fun c : string => c) conn 8 "repo-guid" =
  BundleSizeTools.Rejected BundleSizeTools.TypeError.
Proof. split; reflexivity. Qed.

(** The same pull request on a connection that is refused, and on a
    service whose commit query fails. *)
Lemma getLastCommitHashFromPR_rejected_witness :
  let refused := BundleSizeTools.mkWebApi (number := nat) (GitCommitRef := string)
                   (BundleSizeTools.Rejected (BundleSizeTools.ApiRejection "401")) in
  let failing := BundleSizeTools.mkWebApi
                   (BundleSizeTools.Fulfilled
                      (BundleSizeTools.mkGitApi (number := nat) (GitCommitRef := string)
                         (fun _ _ => BundleSizeTools.Rejected
                                       (BundleSizeTools.ApiRejection "404")))) in
  let empty := BundleSizeTools.mkWebApi
                 (BundleSizeTools.Fulfilled
                    (BundleSizeTools.mkGitApi (number := nat) (GitCommitRef := string)
                       (Reason := string)
                       (fun _ _ => BundleSizeTools.Fulfilled []))) in
  BundleSizeTools.getLastCommitHashFromPR (fun c : string => c) refused 7 "repo-guid" =
  BundleSizeTools.Rejected (BundleSizeTools.ApiRejection "401") /\
  BundleSizeTools.getLastCommitHashFromPR (fun c : string => c) failing 7 "repo-guid" =
  BundleSizeTools.Rejected (BundleSizeTools.ApiRejection "404") /\
  BundleSizeTools.getLastCommitHashFromPR (fun c : string => c) empty 7 "repo-guid" =
  BundleSizeTools.Rejected BundleSizeTools.TypeError.
Proof.
  intros refused failing empty. split; [| split].
  - exact (proj1 (getLastCommitHashFromPR_rejected (fun c : string => c)
                    refused 7 "repo-guid") _ eq_refl).
  - exact (proj1 (proj2 (getLastCommitHashFromPR_rejected (fun c : string => c)
                           failing 7 "repo-guid")) _ _ eq_refl eq_refl).
  - exact (proj2 (proj2 (getLastCommitHashFromPR_rejected (fun c : string => c)
                           empty 7 "repo-guid")) _ eq_refl eq_refl).
Defined.
